(** * EMG ingestion service: the request handlers and the storage writer

    A shallow embedding of [app/models.py], [app/models_db.py],
    [app/crud.py], [app/api/emg.py] and [app/api/endpoints.py].

    Python code that mutates the session and may raise is written in a
    state-and-exception monad [M]: the state survives a raised exception,
    as it does in Python, so that the [finally] clause of [get_db] sees
    what the failed handler left behind. *)

From Stdlib Require Import ZArith NArith List String Bool Lia.
Import ListNotations.

Local Open Scope string_scope.
Local Open Scope list_scope.
Local Open Scope Z_scope.

Set Warnings "-register-all".

(** ** Values on the wire *)

(** [decimal.Decimal], finite values only: sign, coefficient and exponent,
    denoting [(-1)^sign * coefficient * 10^exponent]. *)
Record Decimal : Type := mkDecimal {
  dec_sign : bool;
  dec_coefficient : N;
  dec_exponent : Z
}.

Definition Decimal_of_int (n : Z) : Decimal :=
  mkDecimal (n <? 0) (Z.abs_N n) 0.

(** A decoded JSON document.  Integer literals are kept apart from the
    other number literals, as Python's decoder does; an object keeps its
    members in the order of the text. *)
Inductive json : Type :=
| JNull
| JBool (b : bool)
| JInt (n : Z)
| JReal (literal : Decimal)
| JStr (s : string)
| JArr (items : list json)
| JObj (members : list (string * json)).

(** Member lookup of a decoded object: of two members with one key the
    later one wins. *)
Fixpoint obj_get (key : string) (members : list (string * json)) : option json :=
  match members with
  | [] => None
  | (k, v) :: rest =>
      match obj_get key rest with
      | Some v' => Some v'
      | None => if String.eqb k key then Some v else None
      end
  end.

(** ** app/models.py *)

Record HelloResponse : Type := mkHelloResponse { message : string }.

Record EmgRecord : Type := mkEmgRecord {
  timestamp : Z;          (* milliseconds since the custom epoch *)
  rawValue : Decimal
}.

(** ** app/models_db.py *)

(** An [EmgRecordDB] object as the code constructs it: the two columns
    the constructor is given.  [id] and [created_at] are not set by the
    code; the store fills them in when the row is inserted. *)
Record EmgRecordDB : Type := mkEmgRecordDB {
  db_timestamp : Z;
  db_rawValue : Decimal
}.

(** A row of table [emg_records]. *)
Record EmgRecordRow : Type := mkEmgRecordRow {
  row_id : Z;
  row_timestamp : Z;
  row_rawValue : Decimal;
  row_created_at : Z
}.

(** Range of a [BigInteger] column. *)
Definition INT64_MIN : Z := - 2 ^ 63.
Definition INT64_MAX : Z := 2 ^ 63 - 1.

Definition fits_BigInteger (n : Z) : bool :=
  (INT64_MIN <=? n) && (n <=? INT64_MAX).

(** The caller-supplied part of a row: everything but the surrogate id
    and [created_at]. *)
Definition row_fields (r : EmgRecordRow) : Z * Decimal :=
  (row_timestamp r, row_rawValue r).

(** ** The session and the store behind it *)

(** What the code cannot control: which statement sent on the connection
    fails (connectivity loss, transaction abort), and the server's clock. *)
Record Env : Type := mkEnv {
  fault : nat -> bool;      (* does the k-th statement sent fail? *)
  utc_now : Z               (* timezone('utc', now()) *)
}.

(** What goes over the connection.  The rows of one flush travel in one
    INSERT statement, however many they are. *)
Inductive statement : Type :=
| BEGIN
| INSERT_VALUES (objs : list EmgRecordDB)
| COMMIT
| ROLLBACK.

(** The INSERT of a single row. *)
Definition INSERT (obj : EmgRecordDB) : statement := INSERT_VALUES [obj].

(** Modelled from the spec: [app/db.py] ([SessionLocal], [engine], [Base])
    is not among the sources.  The state holds the store (the committed
    rows of [emg_records] and its id sequence) and the request's session
    (its pending objects and the rows written by its open transaction,
    which nobody else sees until the transaction commits), together with
    the statements sent so far. *)
Record World : Type := mkWorld {
  emg_records : list EmgRecordRow;    (* committed, visible rows *)
  id_seq : Z;                         (* next surrogate id *)
  session_new : list EmgRecordDB;     (* staged by add_all, in order *)
  in_transaction : bool;
  uncommitted : list EmgRecordRow;    (* written, not yet committed *)
  statements : list statement
}.

Inductive exn : Type :=
| DataError            (* a value the column type refuses *)
| OperationalError.    (* the connection or the transaction failed *)

Inductive outcome (A : Type) : Type :=
| Return (a : A)
| Raise (e : exn).

Arguments Return {A} a.
Arguments Raise {A} e.

Definition M (A : Type) : Type := Env -> World -> outcome A * World.

Definition ret {A} (a : A) : M A := fun _ w => (Return a, w).

Definition bind {A B} (m : M A) (k : A -> M B) : M B :=
  fun env w =>
    match m env w with
    | (Return a, w') => k a env w'
    | (Raise e, w') => (Raise e, w')
    end.

Definition raise {A} (e : exn) : M A := fun _ w => (Raise e, w).

Definition modify (f : World -> World) : M unit := fun _ w => (Return tt, f w).

(** [try: body finally: cleanup].  The cleanup runs on both exits; an
    exception of the body is re-raised after it. *)
Definition try_finally {A} (body : M A) (cleanup : M unit) : M A :=
  fun env w =>
    match body env w with
    | (r, w1) =>
        match cleanup env w1 with
        | (Return _, w2) => (r, w2)
        | (Raise e, w2) => (Raise e, w2)
        end
    end.

Declare Scope py_scope.
Delimit Scope py_scope with py.
Notation "x <- m ;; k" := (bind m (fun x => k))
  (at level 61, m at next level, right associativity) : py_scope.
Notation "m ;;; k" := (bind m (fun _ => k))
  (at level 61, right associativity) : py_scope.
Local Open Scope py_scope.

(** Sending one statement: it is recorded, and fails when the
    environment says so. *)
Definition send (s : statement) : M unit :=
  fun env w =>
    let k := List.length (statements w) in
    let w' := mkWorld (emg_records w) (id_seq w) (session_new w)
                      (in_transaction w) (uncommitted w) (statements w ++ [s]) in
    if fault env k then (Raise OperationalError, w') else (Return tt, w').

Definition begin : M unit :=
  send BEGIN ;;;
  modify (fun w => mkWorld (emg_records w) (id_seq w) (session_new w)
                           true [] (statements w)).

(** The rows a list of objects turns into when the sequence stands at
    [first_id] and the clock at [now]. *)
Fixpoint inserted_rows (first_id now : Z) (objs : list EmgRecordDB)
  : list EmgRecordRow :=
  match objs with
  | [] => []
  | obj :: rest =>
      mkEmgRecordRow first_id (db_timestamp obj) (db_rawValue obj) now
        :: inserted_rows (first_id + 1) now rest
  end.

Definition all_fit (objs : list EmgRecordDB) : bool :=
  forallb (fun obj => fits_BigInteger (db_timestamp obj)) objs.

(** Inserting the staged objects, in one statement.  The store refuses
    the statement as a whole when a [timestamp] is outside the
    [BigInteger] range, and then no id has been drawn; otherwise it
    draws the ids from the sequence, in the order of the objects, and
    stamps [created_at] with its own clock.  The rows belong to the open
    transaction. *)
Definition insert_all (objs : list EmgRecordDB) : M unit :=
  send (INSERT_VALUES objs) ;;;
  if all_fit objs
  then fun env w =>
         (Return tt,
          mkWorld (emg_records w) (id_seq w + Z.of_nat (List.length objs))
                  (session_new w) (in_transaction w)
                  (uncommitted w ++ inserted_rows (id_seq w) (utc_now env) objs)
                  (statements w))
  else raise DataError.

(** Rolling back: when a transaction is open it is ended and its rows
    are dropped; otherwise nothing is sent. *)
Definition rollback : M unit :=
  modify (fun w =>
    if in_transaction w
    then mkWorld (emg_records w) (id_seq w) [] false []
                 (statements w ++ [ROLLBACK])
    else w).

(** [db.flush()]: with nothing staged it does nothing and takes no
    connection.  Otherwise the transaction is begun if none is open and
    the staged objects are inserted; when that raises, the session rolls
    the transaction back before the exception goes on. *)
Definition flush : M unit :=
  fun env w =>
    match session_new w with
    | [] => (Return tt, w)
    | objs =>
        match ((if in_transaction w then ret tt else begin) ;;;
               insert_all objs) env w with
        | (Return _, w1) =>
            (Return tt,
             mkWorld (emg_records w1) (id_seq w1) []
                     (in_transaction w1) (uncommitted w1) (statements w1))
        | (Raise e, w1) =>
            match rollback env w1 with
            | (_, w2) => (Raise e, w2)
            end
        end
    end.

(** [SessionLocal()]: a fresh session, nothing staged, no transaction. *)
Definition SessionLocal : M unit :=
  modify (fun w => mkWorld (emg_records w) (id_seq w) [] false [] (statements w)).

(** [db.add_all(objs)] *)
Definition add_all (objs : list EmgRecordDB) : M unit :=
  modify (fun w => mkWorld (emg_records w) (id_seq w) (session_new w ++ objs)
                           (in_transaction w) (uncommitted w) (statements w)).

(** [db.commit()]: flush what is staged, then commit the transaction,
    which is when its rows become visible.  With no transaction open
    nothing is sent.  A COMMIT that fails ends the transaction all the
    same: its rows are dropped and no ROLLBACK follows. *)
Definition commit : M unit :=
  flush ;;;
  fun env w =>
    if in_transaction w
    then match send COMMIT env w with
         | (Return _, w1) =>
             (Return tt,
              mkWorld (emg_records w1 ++ uncommitted w1) (id_seq w1)
                      (session_new w1) false [] (statements w1))
         | (Raise e, w1) =>
             (Raise e,
              mkWorld (emg_records w1) (id_seq w1) (session_new w1)
                      false [] (statements w1))
         end
    else (Return tt, w).

(** [db.close()]: the session is released; a transaction still open is
    rolled back.  Releasing does not raise. *)
Definition close : M unit :=
  modify (fun w =>
    mkWorld (emg_records w) (id_seq w) [] false []
            (if in_transaction w then statements w ++ [ROLLBACK] else statements w)).

(** ** app/crud.py *)

(** [create_emg_records(db, records)]; [db] is the session held in the
    state of [M]. *)
Definition create_emg_records (records : list EmgRecord) : M unit :=
  let db_records :=
    map (fun r => mkEmgRecordDB (timestamp r) (rawValue r)) records in
  add_all db_records ;;;
  commit ;;;
  ret tt.

(** ** app/api/emg.py *)

(** [get_db], a generator dependency: what runs between its [yield] and
    its [finally] is the code that was given the session. *)
Definition get_db {A} (user : M A) : M A :=
  SessionLocal ;;;
  try_finally user close.

Definition receive_emg_records (records : list EmgRecord) : M json :=
  create_emg_records records ;;;
  ret (JObj [("status", JStr "Data Saved");
             ("count", JInt (Z.of_nat (List.length records)))]).

Definition receive_emg_record (record : EmgRecord) : M json :=
  create_emg_records [record] ;;;
  ret (JObj [("status", JStr "Data Saved"); ("count", JInt 1)]).

(** ** app/api/endpoints.py *)

Definition say_hello (name : string) : HelloResponse :=
  mkHelloResponse ("Hello, " ++ name ++ "!")%string.

(** ** The framework around the handlers: validation and responses *)

(** A value of the wrong type for a number field whatever the
    validation library: null, an array or an object. *)
Definition wrong_type (j : json) : bool :=
  match j with
  | JNull | JArr _ | JObj _ => true
  | _ => false
  end.

(** [timestamp: int] and [rawValue: Decimal] are validated by the
    framework.  An integer literal is an [int] as it stands, of any size,
    and converts to a [Decimal] exactly.  Which other scalars are coerced
    (numeric strings, number literals with a fraction, booleans) is the
    validation library's business and is left open here; null, arrays
    and objects are never coerced to a number. *)
Class LaxMode : Type := {
  lax_int : json -> option Z;
  lax_decimal : json -> option Decimal;
  lax_int_refuses : forall j, wrong_type j = true -> lax_int j = None;
  lax_decimal_refuses : forall j, wrong_type j = true -> lax_decimal j = None
}.

(** A validation library that coerces nothing. *)
Definition strict_mode : LaxMode :=
  {| lax_int := fun _ => None;
     lax_decimal := fun _ => None;
     lax_int_refuses := fun _ _ => eq_refl;
     lax_decimal_refuses := fun _ _ => eq_refl |}.

Inductive Response : Type :=
| JSONResponse (status : Z) (content : json)
| RequestValidationError      (* answered with 422 *)
| InternalServerError.        (* an exception escaped the handler: 500 *)

Definition status_code (r : Response) : Z :=
  match r with
  | JSONResponse status _ => status
  | RequestValidationError => 422
  | InternalServerError => 500
  end.

Definition HTTP_200_OK : Z := 200.
Definition HTTP_201_CREATED : Z := 201.

(** A path operation with a body parameter and [Depends(get_db)]: the
    dependency is entered, and only a body that validated ([Some]) reaches
    the handler.  [None] stands for the validation failure. *)
Definition path_operation {T} (handler : T -> M json) (arg : option T)
  : M (option json) :=
  get_db match arg with
         | Some a => content <- handler a ;; ret (Some content)
         | None => ret None
         end.

Definition respond (status : Z) (r : outcome (option json) * World)
  : Response * World :=
  match r with
  | (Return (Some content), w) => (JSONResponse status content, w)
  | (Return None, w) => (RequestValidationError, w)
  | (Raise _, w) => (InternalServerError, w)
  end.

Section Routing.
Context {lax : LaxMode}.

Definition validate_int (j : json) : option Z :=
  match j with
  | JInt n => Some n
  | _ => lax_int j
  end.

Definition validate_Decimal (j : json) : option Decimal :=
  match j with
  | JInt n => Some (Decimal_of_int n)
  | _ => lax_decimal j
  end.

(** Both fields are required; members the model does not declare are
    ignored. *)
Definition validate_EmgRecord (j : json) : option EmgRecord :=
  match j with
  | JObj members =>
      match obj_get "timestamp" members, obj_get "rawValue" members with
      | Some t, Some v =>
          match validate_int t, validate_Decimal v with
          | Some ts, Some rv => Some (mkEmgRecord ts rv)
          | _, _ => None
          end
      | _, _ => None
      end
  | _ => None
  end.

Fixpoint validate_items (items : list json) : option (list EmgRecord) :=
  match items with
  | [] => Some []
  | j :: rest =>
      match validate_EmgRecord j, validate_items rest with
      | Some r, Some rs => Some (r :: rs)
      | _, _ => None
      end
  end.

(** [List[EmgRecord]] *)
Definition validate_List_EmgRecord (body : json) : option (list EmgRecord) :=
  match body with
  | JArr items => validate_items items
  | _ => None
  end.

(** [POST /emg/records] *)
Definition POST_emg_records (body : json) (env : Env) (w : World)
  : Response * World :=
  respond HTTP_201_CREATED
          (path_operation receive_emg_records (validate_List_EmgRecord body) env w).

(** [POST /emg/record] *)
Definition POST_emg_record (body : json) (env : Env) (w : World)
  : Response * World :=
  respond HTTP_201_CREATED
          (path_operation receive_emg_record (validate_EmgRecord body) env w).
End Routing.

(** The same two operations entered with a body that has already been
    validated into model values. *)
Definition submit_batch (records : list EmgRecord) (env : Env) (w : World)
  : Response * World :=
  respond HTTP_201_CREATED
          (path_operation receive_emg_records (Some records) env w).

Definition submit_single (record : EmgRecord) (env : Env) (w : World)
  : Response * World :=
  respond HTTP_201_CREATED
          (path_operation receive_emg_record (Some record) env w).

(** [GET /hello], [name] being the query parameter when it is given. *)
Definition GET_hello (name : option string) : Response :=
  let r := say_hello (match name with Some x => x | None => "World" end) in
  JSONResponse HTTP_200_OK (JObj [("message", JStr (message r))]).

(** ** Vocabulary of the properties *)

Definition EmgRecordDB_of (r : EmgRecord) : EmgRecordDB :=
  mkEmgRecordDB (timestamp r) (rawValue r).

Definition rows_of (first_id now : Z) (records : list EmgRecord)
  : list EmgRecordRow :=
  inserted_rows first_id now (map EmgRecordDB_of records).

(** The statements of one successful call of the storage writer: none
    for no records, otherwise one transaction with one INSERT. *)
Definition transaction_of (records : list EmgRecord) : list statement :=
  match records with
  | [] => []
  | _ => [BEGIN; INSERT_VALUES (map EmgRecordDB_of records); COMMIT]
  end.

(** A record the data model calls well formed: its timestamp is
    representable as a 64-bit signed integer. *)
Definition well_formed (r : EmgRecord) : Prop :=
  INT64_MIN <= timestamp r <= INT64_MAX.

Definition storage_available (env : Env) : Prop :=
  forall k, fault env k = false.

Definition created (count : nat) : Response :=
  JSONResponse 201 (JObj [("status", JStr "Data Saved");
                          ("count", JInt (Z.of_nat count))]).


Definition same_fields (w1 w2 : World) : Prop :=
  map row_fields (emg_records w1) = map row_fields (emg_records w2).

(** The two environments fail at the same statements, counted from
    where each world stands. *)
Definition same_faults (env1 : Env) (w1 : World) (env2 : Env) (w2 : World) : Prop :=
  forall k,
    fault env1 (List.length (statements w1) + k)
    = fault env2 (List.length (statements w2) + k).

(** The objects of the INSERT statements among [sent], in order. *)
Fixpoint inserted (sent : list statement) : list EmgRecordDB :=
  match sent with
  | [] => []
  | INSERT_VALUES objs :: rest => objs ++ inserted rest
  | _ :: rest => inserted rest
  end.


(** ** Sample values *)

(** A validation library that reads a number literal with a fraction as
    the decimal it spells, and coerces nothing else. *)
Definition exact_reals : LaxMode :=
  {| lax_int := fun _ => None;
     lax_decimal := fun j => match j with JReal d => Some d | _ => None end;
     lax_int_refuses := fun _ _ => eq_refl;
     lax_decimal_refuses :=
       fun j =>
         match j as j0
               return wrong_type j0 = true ->
                      match j0 with JReal d => Some d | _ => None end = None
         with
         | JReal _ => fun H => False_ind _ (Bool.diff_false_true H)
         | _ => fun _ => eq_refl
         end |}.

Definition half : Decimal := mkDecimal false 5 (-1).

Definition calm : Env := mkEnv (fun _ => false) 1751000000.

(** The third statement of the request fails. *)
Definition stormy : Env := mkEnv (fun k => Nat.eqb k 2) 1751000000.

(** The second statement of the request fails. *)
Definition gusty : Env := mkEnv (fun k => Nat.eqb k 1) 1751000000.

(** A store with other ids, another clock and an earlier request behind
    it, holding the same fields as [one_row_world]. *)
Definition other_world : World :=
  mkWorld [mkEmgRecordRow 9 42 half 5] 10 [] false []
          [BEGIN; INSERT (mkEmgRecordDB 42 half); COMMIT].

Definition other_calm : Env := mkEnv (fun _ => false) 6.

Definition empty_world : World := mkWorld [] 1 [] false [] [].

Definition one_row_world : World :=
  mkWorld [mkEmgRecordRow 1 42 half 1750000000] 2 [] false [] [].

(** ** Vocabulary of the further properties *)

(** The state of table [emg_records] is sound: every surrogate id has
    been drawn from the sequence, no id occurs twice, and every stored
    timestamp is in the range of its column. *)
Definition store_ok (w : World) : Prop :=
  Forall (fun row => row_id row < id_seq w) (emg_records w)
  /\ NoDup (map row_id (emg_records w))
  /\ Forall (fun row => fits_BigInteger (row_timestamp row) = true) (emg_records w).

(** None of the next [n] statements fails. *)
Definition no_fault_in_next (n : nat) (env : Env) (w : World) : Prop :=
  forall k, (k < n)%nat -> fault env (List.length (statements w) + k) = false.

(** A session that holds nothing: nothing staged, no open transaction. *)
Definition session_released (w : World) : Prop :=
  session_new w = [] /\ in_transaction w = false /\ uncommitted w = [].

(** * Properties *)

(** ** The rows of an insert *)

Lemma inserted_rows_length first_id now objs :
  List.length (inserted_rows first_id now objs) = List.length objs.
Proof.
  revert first_id; induction objs as [|obj rest IH]; intros first_id; simpl.
  - reflexivity.
  - now rewrite IH.
Qed.

Lemma inserted_rows_fields first_id now objs :
  map row_fields (inserted_rows first_id now objs)
  = map (fun obj => (db_timestamp obj, db_rawValue obj)) objs.
Proof.
  revert first_id; induction objs as [|obj rest IH]; intros first_id; simpl.
  - reflexivity.
  - now rewrite IH.
Qed.

Lemma inserted_rows_nth now objs :
  forall first_id i obj,
    nth_error objs i = Some obj ->
    nth_error (inserted_rows first_id now objs) i
    = Some (mkEmgRecordRow (first_id + Z.of_nat i)
                           (db_timestamp obj) (db_rawValue obj) now).
Proof.
  induction objs as [|o rest IH]; intros first_id [|i] obj H; simpl in *;
    try discriminate.
  - inversion H; subst. now rewrite Z.add_0_r.
  - rewrite (IH _ _ _ H). do 2 f_equal. lia.
Qed.

Lemma all_fit_well_formed records :
  all_fit (map EmgRecordDB_of records) = true <-> Forall well_formed records.
Proof.
  unfold all_fit. rewrite forallb_forall, Forall_forall. split.
  - intros H r Hr.
    specialize (H (EmgRecordDB_of r) (in_map _ _ _ Hr)).
    unfold fits_BigInteger, EmgRecordDB_of in H. cbn in H.
    apply andb_prop in H. destruct H as [Hlo Hhi].
    split; now apply Z.leb_le.
  - intros H obj Hobj. apply in_map_iff in Hobj.
    destruct Hobj as (r & <- & Hr). destruct (H r Hr) as [Hlo Hhi].
    unfold fits_BigInteger, EmgRecordDB_of. cbn.
    apply andb_true_intro. split; now apply Z.leb_le.
Qed.

(** ** One call of a handler, from the request to the response *)

(** Both handlers store a list of records and answer with a fixed
    content.  This is the whole call, case by case: nothing is sent for
    no records; otherwise BEGIN, the INSERT and COMMIT are sent until one
    of them fails. *)
Lemma call_run records content env w :
  respond HTTP_201_CREATED
    (path_operation (fun _ : unit => create_emg_records records ;;; ret content)
                    (Some tt) env w)
  = match records with
    | [] =>
        (JSONResponse 201 content,
         mkWorld (emg_records w) (id_seq w) [] false [] (statements w))
    | _ :: _ =>
        let n := List.length (statements w) in
        let objs := map EmgRecordDB_of records in
        if fault env n
        then (InternalServerError,
              mkWorld (emg_records w) (id_seq w) [] false []
                      (statements w ++ [BEGIN]))
        else if fault env (n + 1)
        then (InternalServerError,
              mkWorld (emg_records w) (id_seq w) [] false []
                      (statements w ++ [BEGIN; INSERT_VALUES objs; ROLLBACK]))
        else if negb (all_fit objs)
        then (InternalServerError,
              mkWorld (emg_records w) (id_seq w) [] false []
                      (statements w ++ [BEGIN; INSERT_VALUES objs; ROLLBACK]))
        else if fault env (n + 2)
        then (InternalServerError,
              mkWorld (emg_records w)
                      (id_seq w + Z.of_nat (List.length records)) [] false []
                      (statements w ++ [BEGIN; INSERT_VALUES objs; COMMIT]))
        else (JSONResponse 201 content,
              mkWorld (emg_records w ++ rows_of (id_seq w) (utc_now env) records)
                      (id_seq w + Z.of_nat (List.length records)) [] false []
                      (statements w ++ [BEGIN; INSERT_VALUES objs; COMMIT]))
    end.
Proof.
  destruct records as [|r rest]; [reflexivity|].
  cbv zeta. unfold rows_of.
  assert (Hlen : List.length (r :: rest)
                 = List.length (map EmgRecordDB_of (r :: rest)))
    by now rewrite length_map.
  rewrite Hlen.
  change (map (fun r => mkEmgRecordDB (timestamp r) (rawValue r)) (r :: rest))
    with (map EmgRecordDB_of (r :: rest)).
  unfold path_operation, get_db, create_emg_records.
  change (map (fun r => mkEmgRecordDB (timestamp r) (rawValue r)) (r :: rest))
    with (map EmgRecordDB_of (r :: rest)).
  assert (Hcons : map EmgRecordDB_of (r :: rest)
                  = EmgRecordDB_of r :: map EmgRecordDB_of rest) by reflexivity.
  remember (map EmgRecordDB_of (r :: rest)) as objs eqn:Hobjs.
  clear Hobjs Hlen. destruct objs as [|o os]; [discriminate|]. clear Hcons.
  remember (o :: os) as objs eqn:Hobjs.
  unfold commit, flush, rollback, begin, insert_all, add_all, SessionLocal,
    try_finally, close, modify, bind, ret, raise, send.
  cbn -[all_fit inserted_rows Z.of_nat List.length Z.add].
  rewrite Hobjs at 1.
  cbn -[all_fit inserted_rows Z.of_nat List.length Z.add].
  subst objs.
  destruct (fault env (List.length (statements w))); cbn -[all_fit inserted_rows Z.of_nat List.length Z.add].
  { reflexivity. }
  rewrite !length_app. cbn [List.length].
  destruct (fault env (List.length (statements w) + 1)); cbn -[all_fit inserted_rows Z.of_nat List.length Z.add].
  { now rewrite <- !app_assoc. }
  destruct (all_fit (o :: os)); cbn -[all_fit inserted_rows Z.of_nat List.length Z.add].
  2: { now rewrite <- !app_assoc. }
  rewrite !length_app. cbn [List.length].
  replace (List.length (statements w) + 1 + 1)%nat
    with (List.length (statements w) + 2)%nat by lia.
  destruct (fault env (List.length (statements w) + 2)); cbn -[all_fit inserted_rows Z.of_nat List.length Z.add];
    now rewrite <- !app_assoc.
Qed.

Lemma not_all_fit records :
  all_fit (map EmgRecordDB_of records) = false ->
  Exists (fun r => ~ well_formed r) records.
Proof.
  induction records as [|r rest IH]; cbn; [discriminate|].
  intros H. apply andb_false_iff in H. destruct H as [H | H].
  - left. intros [Hlo Hhi]. unfold fits_BigInteger in H.
    apply andb_false_iff in H. destruct H as [H | H];
      apply Z.leb_gt in H; lia.
  - right. now apply IH.
Qed.

(** With well-formed records and the storage available the call
    succeeds, whatever the number of records. *)
Lemma call_ok records content env w :
  Forall well_formed records ->
  storage_available env ->
  respond HTTP_201_CREATED
    (path_operation (fun _ : unit => create_emg_records records ;;; ret content)
                    (Some tt) env w)
  = (JSONResponse 201 content,
     mkWorld (emg_records w ++ rows_of (id_seq w) (utc_now env) records)
             (id_seq w + Z.of_nat (List.length records)) [] false []
             (statements w ++ transaction_of records)).
Proof.
  intros Hwf Hcalm. rewrite call_run.
  destruct records as [|r rest].
  - cbn. now rewrite Z.add_0_r, !app_nil_r.
  - cbv zeta. rewrite !Hcalm.
    rewrite (proj2 (all_fit_well_formed _) Hwf). reflexivity.
Qed.

(** In whatever environment the call ends in one of two ways.  Either
    the transaction committed: all rows are visible and every record was
    well formed.  Or an exception escaped: the committed rows are what
    they were, there was at least one record, and a timestamp was out of
    range or one of the three statements failed; what was sent is a
    prefix of the transaction, followed by at most a rollback. *)
Lemma call_cases records content env w :
  let res := respond HTTP_201_CREATED
               (path_operation (fun _ : unit => create_emg_records records ;;; ret content)
                               (Some tt) env w) in
  (res = (JSONResponse 201 content,
          mkWorld (emg_records w ++ rows_of (id_seq w) (utc_now env) records)
                  (id_seq w + Z.of_nat (List.length records)) [] false []
                  (statements w ++ transaction_of records))
   /\ Forall well_formed records
   /\ (records = [] \/ no_fault_in_next 3 env w))
  \/ exists w' k tail,
       res = (InternalServerError, w')
       /\ emg_records w' = emg_records w
       /\ id_seq w <= id_seq w'
       /\ session_released w'
       /\ records <> []
       /\ (Exists (fun r => ~ well_formed r) records
           \/ exists i, (i < 3)%nat
                        /\ fault env (List.length (statements w) + i) = true)
       /\ statements w' = statements w ++ firstn k (transaction_of records) ++ tail
       /\ (tail = [] \/ tail = [ROLLBACK]).
Proof.
  intros res. subst res. rewrite call_run.
  destruct records as [|r rest].
  - left. cbn. rewrite Z.add_0_r, !app_nil_r.
    repeat split; [constructor|now left].
  - cbv zeta.
    remember (r :: rest) as records eqn:Hrec.
    assert (Hne : records <> []) by (subst; discriminate).
    assert (Htx : transaction_of records
                  = [BEGIN; INSERT_VALUES (map EmgRecordDB_of records); COMMIT])
      by (subst; reflexivity).
    assert (Hreleased : forall rows i st,
               session_released (mkWorld rows i [] false [] st))
      by (intros; repeat split).
    rewrite Htx. clear Hrec.
    destruct (fault env (List.length (statements w))) eqn:H0.
    { right. eexists. exists 1%nat, []. cbn [firstn app].
      repeat split; try (cbn; lia); try assumption; [|now left].
      right. exists 0%nat. split; [lia|]. now rewrite Nat.add_0_r. }
    destruct (fault env (List.length (statements w) + 1)) eqn:H1.
    { right. eexists. exists 2%nat, [ROLLBACK]. cbn [firstn app].
      repeat split; try (cbn; lia); try assumption; [|now right].
      right. exists 1%nat. split; [lia|assumption]. }
    destruct (all_fit (map EmgRecordDB_of records)) eqn:Hfit; cbn [negb].
    2: { right. eexists. exists 2%nat, [ROLLBACK]. cbn [firstn app].
         repeat split; try (cbn; lia); try assumption; [|now right].
         left. now apply not_all_fit. }
    destruct (fault env (List.length (statements w) + 2)) eqn:H2.
    { right. eexists. exists 3%nat, []. cbn [firstn app].
      repeat split; try (cbn; lia); try assumption; [|now left].
      right. exists 2%nat. split; [lia|assumption]. }
    left. repeat split.
    + now apply all_fit_well_formed.
    + right. intros k Hk.
      destruct k as [|[|[|k]]]; try lia; try assumption.
      now rewrite Nat.add_0_r.
Qed.

(** The call succeeds exactly when there is nothing to store, or every
    timestamp fits its column and none of BEGIN, INSERT and COMMIT
    fails. *)
Lemma call_succeeds_iff records content env w :
  fst (respond HTTP_201_CREATED
         (path_operation (fun _ : unit => create_emg_records records ;;; ret content)
                         (Some tt) env w))
  = JSONResponse 201 content
  <-> records = []
      \/ (Forall well_formed records /\ no_fault_in_next 3 env w).
Proof.
  split.
  - intros H.
    destruct (call_cases records content env w)
      as [(Hok & Hwf & Hcalm) | (w' & k & tail & Hres & _)].
    + destruct Hcalm as [-> | Hcalm]; [now left|right; now split].
    + rewrite Hres in H. discriminate.
  - intros [-> | [Hwf Hcalm]].
    + now rewrite call_run.
    + rewrite call_run. destruct records as [|r rest]; [reflexivity|].
      cbv zeta.
      pose proof (Hcalm 0%nat ltac:(lia)) as H0. rewrite Nat.add_0_r in H0.
      rewrite H0, (Hcalm 1%nat ltac:(lia)), (Hcalm 2%nat ltac:(lia)).
      rewrite (proj2 (all_fit_well_formed _) Hwf). reflexivity.
Qed.

Lemma submit_batch_unfold records env w :
  submit_batch records env w
  = respond HTTP_201_CREATED
      (path_operation
         (fun _ : unit =>
            create_emg_records records ;;;
            ret (JObj [("status", JStr "Data Saved");
                       ("count", JInt (Z.of_nat (List.length records)))]))
         (Some tt) env w).
Proof. reflexivity. Qed.

Lemma submit_single_unfold record env w :
  submit_single record env w
  = respond HTTP_201_CREATED
      (path_operation
         (fun _ : unit =>
            create_emg_records [record] ;;;
            ret (JObj [("status", JStr "Data Saved"); ("count", JInt 1)]))
         (Some tt) env w).
Proof. reflexivity. Qed.

Section RoutingFacts.
Context {lax : LaxMode}.

Lemma POST_emg_records_valid body records env w :
  validate_List_EmgRecord body = Some records ->
  POST_emg_records body env w = submit_batch records env w.
Proof. intros H. unfold POST_emg_records, submit_batch. now rewrite H. Qed.

Lemma POST_emg_record_valid body record env w :
  validate_EmgRecord body = Some record ->
  POST_emg_record body env w = submit_single record env w.
Proof. intros H. unfold POST_emg_record, submit_single. now rewrite H. Qed.

Lemma POST_emg_records_invalid body env w :
  validate_List_EmgRecord body = None ->
  POST_emg_records body env w
  = (RequestValidationError,
     mkWorld (emg_records w) (id_seq w) [] false [] (statements w)).
Proof. intros H. unfold POST_emg_records. now rewrite H. Qed.

Lemma POST_emg_record_invalid body env w :
  validate_EmgRecord body = None ->
  POST_emg_record body env w
  = (RequestValidationError,
     mkWorld (emg_records w) (id_seq w) [] false [] (statements w)).
Proof. intros H. unfold POST_emg_record. now rewrite H. Qed.


Lemma validate_items_length items :
  forall records,
    validate_items items = Some records ->
    List.length records = List.length items.
Proof.
  induction items as [|x rest IH]; intros records H; cbn in H.
  - now inversion H.
  - destruct (validate_EmgRecord x); [|discriminate].
    destruct (validate_items rest) eqn:Hrest; [|discriminate].
    inversion H; subst. cbn. now rewrite (IH _ eq_refl).
Qed.


End RoutingFacts.

(** ** The claims *)

(** C1.  A batch of N well-formed records, submitted to the batch
    endpoint while the storage is available, is answered 201 with status
    "Data Saved" and count N, and exactly N rows are added to the
    committed rows; for the empty batch the count is 0 and the committed
    rows are the same as before. *)
Theorem batch_of_N_persists_N {lax : LaxMode} body records env w :
  validate_List_EmgRecord body = Some records ->
  Forall well_formed records ->
  storage_available env ->
  let '(resp, w') := POST_emg_records body env w in
  resp = created (List.length records)
  /\ status_code resp = 201
  /\ emg_records w' = emg_records w ++ rows_of (id_seq w) (utc_now env) records
  /\ List.length (emg_records w')
     = (List.length (emg_records w) + List.length records)%nat
  /\ (records = [] -> resp = created 0 /\ emg_records w' = emg_records w).
Proof.
  intros Hvalid Hwf Hcalm.
  rewrite (POST_emg_records_valid _ _ _ _ Hvalid), submit_batch_unfold.
  rewrite (call_ok _ _ _ _ Hwf Hcalm). cbn [emg_records].
  repeat split.
  - rewrite length_app. unfold rows_of.
    now rewrite inserted_rows_length, length_map.
  - now subst records.
  - subst records. cbn. now rewrite app_nil_r.
Qed.

Lemma batch_of_N_persists_N_witness :
  let body := JArr [JObj [("timestamp", JInt 1000); ("rawValue", JReal half)];
                    JObj [("rawValue", JInt 3); ("timestamp", JInt 1001)]] in
  let records := [mkEmgRecord 1000 half; mkEmgRecord 1001 (Decimal_of_int 3)] in
  @validate_List_EmgRecord exact_reals body = Some records
  /\ Forall well_formed records
  /\ storage_available calm
  /\ let '(resp, w') := @POST_emg_records exact_reals body calm one_row_world in
     resp = created 2
     /\ status_code resp = 201
     /\ emg_records w' = emg_records one_row_world ++ rows_of 2 1751000000 records
     /\ List.length (emg_records w') = 3%nat
     /\ (records = [] -> resp = created 0 /\ emg_records w' = emg_records one_row_world).
Proof.
  intros body records.
  assert (Hv : @validate_List_EmgRecord exact_reals body = Some records)
    by reflexivity.
  assert (Hwf : Forall well_formed records).
  { repeat constructor; unfold well_formed, INT64_MIN, INT64_MAX; cbn; lia. }
  assert (Hcalm : storage_available calm) by (intros k; reflexivity).
  split; [exact Hv|]. split; [exact Hwf|]. split; [exact Hcalm|].
  exact (@batch_of_N_persists_N exact_reals body records calm one_row_world
           Hv Hwf Hcalm).
Defined.

(** C2.  One call of the batch operation is atomic, in whatever
    environment.  Either the response is 201, every record of the call
    is a committed row and every record was well formed.  Or an exception
    escaped: the response is a server error, the committed rows are
    exactly those from before the call, and there was a cause in the
    storage, a timestamp outside the column's range or a failing
    statement.  Nothing is retried: the statements sent are those of one
    transaction, or a prefix of it followed by at most a rollback. *)
Theorem append_is_atomic records env w :
  let '(resp, w') := submit_batch records env w in
  (resp = created (List.length records)
   /\ emg_records w' = emg_records w ++ rows_of (id_seq w) (utc_now env) records
   /\ Forall well_formed records
   /\ statements w' = statements w ++ transaction_of records)
  \/ (resp = InternalServerError
      /\ status_code resp = 500
      /\ emg_records w' = emg_records w
      /\ records <> []
      /\ (Exists (fun r => ~ well_formed r) records
          \/ exists i, (i < 3)%nat
                       /\ fault env (List.length (statements w) + i) = true)
      /\ exists k tail,
           statements w' = statements w ++ firstn k (transaction_of records) ++ tail
           /\ (tail = [] \/ tail = [ROLLBACK])).
Proof.
  rewrite submit_batch_unfold.
  match goal with |- context [path_operation (fun _ : unit => _ ;;; ret ?c)] =>
    destruct (call_cases records c env w)
      as [(Hok & Hwf & _)
         | (w' & k & tail & Hres & Hrows & _ & _ & Hne & Hcause & Hst & Htail)]
  end.
  - rewrite Hok. left. repeat split. exact Hwf.
  - rewrite Hres. right. repeat split; try assumption.
    exists k, tail. now split.
Qed.

(** The storage writer in a released session, when the records fit
    their columns and the storage does not fail. *)
Lemma create_emg_records_ok records env w :
  session_new w = [] ->
  in_transaction w = false ->
  Forall well_formed records ->
  storage_available env ->
  let '(r, w') := create_emg_records records env w in
  r = Return tt
  /\ emg_records w' = emg_records w ++ rows_of (id_seq w) (utc_now env) records
  /\ id_seq w' = id_seq w + Z.of_nat (List.length records)
  /\ statements w' = statements w ++ transaction_of records.
Proof.
  intros Hnew Htx Hwf Hcalm.
  apply all_fit_well_formed in Hwf.
  destruct records as [|r rest].
  - unfold create_emg_records, commit, flush, add_all, modify, bind, ret.
    cbn. rewrite Hnew. cbn. rewrite Htx. cbn.
    now rewrite Z.add_0_r, !app_nil_r.
  - unfold rows_of.
    assert (Hlen : List.length (r :: rest)
                   = List.length (map EmgRecordDB_of (r :: rest)))
      by now rewrite length_map.
    rewrite Hlen.
    assert (Htr : transaction_of (r :: rest)
                  = [BEGIN; INSERT_VALUES (map EmgRecordDB_of (r :: rest)); COMMIT])
      by reflexivity.
    rewrite Htr.
    unfold create_emg_records.
    change (map (fun r => mkEmgRecordDB (timestamp r) (rawValue r)) (r :: rest))
      with (map EmgRecordDB_of (r :: rest)).
    assert (Hcons : map EmgRecordDB_of (r :: rest)
                    = EmgRecordDB_of r :: map EmgRecordDB_of rest) by reflexivity.
    remember (map EmgRecordDB_of (r :: rest)) as objs eqn:Hobjs.
    clear Hobjs Hlen Htr. destruct objs as [|o os]; [discriminate|]. clear Hcons.
    unfold commit, flush, rollback, begin, insert_all, add_all, modify, bind,
      ret, raise, send.
    cbn -[all_fit inserted_rows Z.of_nat List.length Z.add].
    rewrite Hnew.
    cbn -[all_fit inserted_rows Z.of_nat List.length Z.add].
    rewrite Htx. unfold storage_available in Hcalm.
    cbn -[all_fit inserted_rows Z.of_nat List.length Z.add].
    rewrite Hcalm.
    cbn -[all_fit inserted_rows Z.of_nat List.length Z.add].
    rewrite Hcalm, Hwf.
    cbn -[all_fit inserted_rows Z.of_nat List.length Z.add].
    rewrite Hcalm.
    cbn -[all_fit inserted_rows Z.of_nat List.length Z.add].
    repeat split. now rewrite <- !app_assoc.
Qed.

(** C4.  In a released session, with well-formed records and the
    storage available, the storage writer returns normally; the rows it
    adds are one per record, in order, with [timestamp] and [rawValue]
    copied and [created_at] read from the store's clock; and for at least
    one record the statements it sent are one BEGIN, one INSERT carrying
    the object of every record in order, and one COMMIT, while for no
    record it sends nothing. *)
Theorem writer_copies_and_commits_once records env w :
  session_new w = [] ->
  in_transaction w = false ->
  Forall well_formed records ->
  storage_available env ->
  let '(r, w') := create_emg_records records env w in
  r = Return tt
  /\ (exists rows,
        emg_records w' = emg_records w ++ rows
        /\ map row_fields rows = map (fun r => (timestamp r, rawValue r)) records
        /\ Forall (fun row => row_created_at row = utc_now env) rows)
  /\ (records = [] -> statements w' = statements w)
  /\ (records <> [] ->
      statements w'
      = statements w
          ++ [BEGIN; INSERT_VALUES (map EmgRecordDB_of records); COMMIT]).
Proof.
  intros Hnew Htx Hwf Hcalm.
  pose proof (create_emg_records_ok records env w Hnew Htx Hwf Hcalm) as H.
  destruct (create_emg_records records env w) as [r w'].
  destruct H as (Hr & Hrows & _ & Hst).
  split; [exact Hr|]. split; [|split].
  - exists (rows_of (id_seq w) (utc_now env) records). repeat split.
    + exact Hrows.
    + unfold rows_of. rewrite inserted_rows_fields, map_map. reflexivity.
    + unfold rows_of. generalize (id_seq w). clear.
      induction records as [|r rest IH]; intros n; cbn; constructor.
      * reflexivity.
      * apply IH.
  - intros ->. rewrite Hst. cbn. now rewrite app_nil_r.
  - intros Hne. rewrite Hst. destruct records; [now destruct Hne|reflexivity].
Qed.

Lemma writer_copies_and_commits_once_witness :
  let records := [mkEmgRecord 1000 half; mkEmgRecord 7 half; mkEmgRecord 1000 half] in
  (session_new one_row_world = []
   /\ in_transaction one_row_world = false
   /\ Forall well_formed records
   /\ storage_available calm
   /\ let '(r, w') := create_emg_records records calm one_row_world in
      r = Return tt
      /\ (exists rows,
            emg_records w' = emg_records one_row_world ++ rows
            /\ map row_fields rows = [(1000, half); (7, half); (1000, half)]
            /\ Forall (fun row => row_created_at row = 1751000000) rows)
      /\ (records = [] -> statements w' = statements one_row_world)
      /\ (records <> [] ->
          statements w'
          = [BEGIN;
             INSERT_VALUES [mkEmgRecordDB 1000 half; mkEmgRecordDB 7 half;
                            mkEmgRecordDB 1000 half];
             COMMIT]))
  /\ (let '(r, w') := create_emg_records [] calm other_world in
      r = Return tt
      /\ (exists rows,
            emg_records w' = emg_records other_world ++ rows
            /\ map row_fields rows = []
            /\ Forall (fun row => row_created_at row = 1751000000) rows)
      /\ (@nil EmgRecord = [] -> statements w' = statements other_world)
      /\ (@nil EmgRecord <> [] ->
          statements w'
          = statements other_world ++ [BEGIN; INSERT_VALUES []; COMMIT])).
Proof.
  intros records.
  assert (Hwf : Forall well_formed records).
  { repeat constructor; unfold well_formed, INT64_MIN, INT64_MAX; cbn; lia. }
  assert (Hcalm : storage_available calm) by (intros k; reflexivity).
  split.
  - split; [reflexivity|]. split; [reflexivity|].
    split; [exact Hwf|]. split; [exact Hcalm|].
    exact (writer_copies_and_commits_once records calm one_row_world
             eq_refl eq_refl Hwf Hcalm).
  - exact (writer_copies_and_commits_once [] calm other_world
             eq_refl eq_refl (Forall_nil _) Hcalm).
Defined.



(** From one state and in one environment, the single-record operation
    and the batch operation on the one-element list do the same thing,
    response and final state alike. *)
Lemma submit_single_is_singleton_batch r env w :
  submit_single r env w = submit_batch [r] env w.
Proof. reflexivity. Qed.

Lemma submit_batch_one_run r env w :
  submit_batch [r] env w
  = let n := List.length (statements w) in
    let obj := EmgRecordDB_of r in
    let row := mkEmgRecordRow (id_seq w) (timestamp r) (rawValue r) (utc_now env) in
    if fault env n
    then (InternalServerError,
          mkWorld (emg_records w) (id_seq w) [] false [] (statements w ++ [BEGIN]))
    else if fault env (n + 1)
    then (InternalServerError,
          mkWorld (emg_records w) (id_seq w) [] false []
                  (statements w ++ [BEGIN; INSERT obj; ROLLBACK]))
    else if negb (fits_BigInteger (timestamp r))
    then (InternalServerError,
          mkWorld (emg_records w) (id_seq w) [] false []
                  (statements w ++ [BEGIN; INSERT obj; ROLLBACK]))
    else if fault env (n + 2)
    then (InternalServerError,
          mkWorld (emg_records w) (id_seq w + 1) [] false []
                  (statements w ++ [BEGIN; INSERT obj; COMMIT]))
    else (created 1,
          mkWorld (emg_records w ++ [row]) (id_seq w + 1) [] false []
                  (statements w ++ [BEGIN; INSERT obj; COMMIT])).
Proof.
  rewrite submit_batch_unfold, call_run. cbv zeta.
  unfold all_fit. cbn [map forallb EmgRecordDB_of db_timestamp].
  rewrite andb_true_r. reflexivity.
Qed.

(** C5.  Submitting a record through the single-record operation and
    submitting it as a one-element batch, from states whose rows agree
    up to surrogate id and [created_at] and under the same storage
    behaviour, give the same response and end in states whose rows agree
    up to surrogate id and [created_at]. *)
Theorem single_agrees_with_batch_of_one r env1 w1 env2 w2 :
  same_fields w1 w2 ->
  same_faults env1 w1 env2 w2 ->
  let '(resp1, w1') := submit_single r env1 w1 in
  let '(resp2, w2') := submit_batch [r] env2 w2 in
  resp1 = resp2 /\ same_fields w1' w2'.
Proof.
  intros Hrows Hfaults.
  rewrite submit_single_is_singleton_batch, !submit_batch_one_run. cbv zeta.
  pose proof (Hfaults 0%nat) as H0. rewrite !Nat.add_0_r in H0.
  rewrite H0, (Hfaults 1%nat), (Hfaults 2%nat).
  unfold same_fields in *.
  destruct (fault env2 (List.length (statements w2))); [now split|].
  destruct (fault env2 (List.length (statements w2) + 1)); [now split|].
  destruct (fits_BigInteger (timestamp r)); cbn [negb]; [|now split].
  destruct (fault env2 (List.length (statements w2) + 2)); [now split|].
  split; [reflexivity|]. cbn [emg_records].
  rewrite !map_app, Hrows. reflexivity.
Qed.

(** The two operations with the storage available, in stores with
    different ids and clocks: both answer 201 and both persist the row. *)
Lemma single_agrees_with_batch_of_one_witness :
  let r := mkEmgRecord 1000 half in
  same_fields one_row_world other_world
  /\ same_faults calm one_row_world other_calm other_world
  /\ (let '(resp1, w1') := submit_single r calm one_row_world in
      let '(resp2, w2') := submit_batch [r] other_calm other_world in
      resp1 = resp2 /\ same_fields w1' w2')
  /\ submit_single r calm one_row_world
     = (created 1,
        mkWorld [mkEmgRecordRow 1 42 half 1750000000;
                 mkEmgRecordRow 2 1000 half 1751000000]
                3 [] false [] [BEGIN; INSERT (mkEmgRecordDB 1000 half); COMMIT])
  /\ submit_batch [r] other_calm other_world
     = (created 1,
        mkWorld [mkEmgRecordRow 9 42 half 5; mkEmgRecordRow 10 1000 half 6]
                11 [] false []
                [BEGIN; INSERT (mkEmgRecordDB 42 half); COMMIT;
                 BEGIN; INSERT (mkEmgRecordDB 1000 half); COMMIT]).
Proof.
  intros r.
  assert (Hrows : same_fields one_row_world other_world) by reflexivity.
  assert (Hfaults : same_faults calm one_row_world other_calm other_world)
    by (intros k; reflexivity).
  split; [exact Hrows|]. split; [exact Hfaults|]. split.
  - exact (single_agrees_with_batch_of_one r calm one_row_world
             other_calm other_world Hrows Hfaults).
  - split; reflexivity.
Defined.

(** C6.  A body that validates into a well-formed record, posted to the
    single-record endpoint while the storage is available, is answered
    201 with status "Data Saved" and count 1, and exactly one row is
    added, carrying the record's timestamp and rawValue. *)
Theorem single_record_is_saved {lax : LaxMode} body r env w :
  validate_EmgRecord body = Some r ->
  well_formed r ->
  storage_available env ->
  POST_emg_record body env w
  = (JSONResponse 201 (JObj [("status", JStr "Data Saved"); ("count", JInt 1)]),
     mkWorld (emg_records w
                ++ [mkEmgRecordRow (id_seq w) (timestamp r) (rawValue r) (utc_now env)])
             (id_seq w + 1) [] false []
             (statements w ++ [BEGIN; INSERT (EmgRecordDB_of r); COMMIT])).
Proof.
  intros Hvalid Hwf Hcalm.
  rewrite (POST_emg_record_valid _ _ _ _ Hvalid), submit_single_unfold.
  rewrite call_ok; [reflexivity| |assumption].
  now constructor.
Qed.

Lemma single_record_is_saved_witness :
  let body := JObj [("timestamp", JInt 1000); ("rawValue", JReal half)] in
  let r := mkEmgRecord 1000 half in
  @validate_EmgRecord exact_reals body = Some r
  /\ well_formed r
  /\ storage_available calm
  /\ @POST_emg_record exact_reals body calm one_row_world
     = (JSONResponse 201 (JObj [("status", JStr "Data Saved"); ("count", JInt 1)]),
        mkWorld [mkEmgRecordRow 1 42 half 1750000000;
                 mkEmgRecordRow 2 1000 half 1751000000]
                3 [] false []
                [BEGIN; INSERT (mkEmgRecordDB 1000 half); COMMIT]).
Proof.
  intros body r.
  assert (Hv : @validate_EmgRecord exact_reals body = Some r) by reflexivity.
  assert (Hwf : well_formed r)
    by (unfold well_formed, INT64_MIN, INT64_MAX; cbn; lia).
  assert (Hcalm : storage_available calm) by (intros k; reflexivity).
  split; [exact Hv|]. split; [exact Hwf|]. split; [exact Hcalm|].
  exact (@single_record_is_saved exact_reals body r calm one_row_world
           Hv Hwf Hcalm).
Defined.

(** C8.  A timestamp in the 64-bit signed range, the two ends included,
    passes validation as it is, and while the storage is available it is
    stored as it is: the new row holds that very integer.  Validation
    itself sets no bound of its own. *)
Theorem int64_timestamp_is_accepted_and_kept {lax : LaxMode} ts v rv env w :
  INT64_MIN <= ts <= INT64_MAX ->
  validate_Decimal v = Some rv ->
  storage_available env ->
  let body := JObj [("timestamp", JInt ts); ("rawValue", v)] in
  validate_int (JInt ts) = Some ts
  /\ validate_EmgRecord body = Some (mkEmgRecord ts rv)
  /\ let '(resp, w') := POST_emg_record body env w in
     status_code resp = 201
     /\ exists row,
          emg_records w' = emg_records w ++ [row]
          /\ row_timestamp row = ts
          /\ row_rawValue row = rv.
Proof.
  intros Hrange Hv Hcalm body.
  assert (Hbody : validate_EmgRecord body = Some (mkEmgRecord ts rv)).
  { unfold body. cbn. now rewrite Hv. }
  split; [reflexivity|]. split; [exact Hbody|].
  rewrite (POST_emg_record_valid _ _ _ _ Hbody), submit_single_unfold.
  rewrite call_ok; [|now constructor|assumption].
  split; [reflexivity|]. eexists. cbn. repeat split.
Qed.

Lemma int64_timestamp_is_accepted_and_kept_witness :
  let kept (ts : Z) :=
    let body := JObj [("timestamp", JInt ts); ("rawValue", JInt 3)] in
    @validate_int strict_mode (JInt ts) = Some ts
    /\ @validate_EmgRecord strict_mode body = Some (mkEmgRecord ts (Decimal_of_int 3))
    /\ let '(resp, w') := @POST_emg_record strict_mode body calm empty_world in
       status_code resp = 201
       /\ exists row,
            emg_records w' = emg_records empty_world ++ [row]
            /\ row_timestamp row = ts
            /\ row_rawValue row = Decimal_of_int 3 in
  INT64_MIN <= -9223372036854775808 <= INT64_MAX
  /\ INT64_MIN <= 9223372036854775807 <= INT64_MAX
  /\ @validate_Decimal strict_mode (JInt 3) = Some (Decimal_of_int 3)
  /\ storage_available calm
  /\ kept (-9223372036854775808)
  /\ kept 9223372036854775807.
Proof.
  intros kept.
  assert (Hcalm : storage_available calm) by (intros k; reflexivity).
  assert (Hmin : INT64_MIN <= -9223372036854775808 <= INT64_MAX)
    by (unfold INT64_MIN, INT64_MAX; lia).
  assert (Hmax : INT64_MIN <= 9223372036854775807 <= INT64_MAX)
    by (unfold INT64_MIN, INT64_MAX; lia).
  split; [exact Hmin|]. split; [exact Hmax|].
  split; [reflexivity|]. split; [exact Hcalm|]. split.
  - exact (@int64_timestamp_is_accepted_and_kept strict_mode
             (-9223372036854775808) (JInt 3) (Decimal_of_int 3) calm empty_world
             Hmin eq_refl Hcalm).
  - exact (@int64_timestamp_is_accepted_and_kept strict_mode
             9223372036854775807 (JInt 3) (Decimal_of_int 3) calm empty_world
             Hmax eq_refl Hcalm).
Defined.

(** C9.  [GET /hello?name=X] is answered 200 with the message
    "Hello, X!", for every string X; without the parameter X is "World". *)
Theorem hello_greets_by_name :
  (forall X : string,
      GET_hello (Some X)
      = JSONResponse 200 (JObj [("message", JStr ("Hello, " ++ X ++ "!")%string)]))
  /\ GET_hello None = JSONResponse 200 (JObj [("message", JStr "Hello, World!")])
  /\ GET_hello (Some "Ada") = JSONResponse 200 (JObj [("message", JStr "Hello, Ada!")])
  /\ (forall name, status_code (GET_hello name) = 200).
Proof.
  repeat split.
Qed.

(** ** The order of the inserts *)

Lemma inserted_transaction_of records :
  inserted (transaction_of records) = map EmgRecordDB_of records.
Proof.
  destruct records as [|r rest]; [reflexivity|].
  cbn [transaction_of inserted]. now rewrite app_nil_r.
Qed.

(** C10.  With well-formed records and the storage available the call
    succeeds, and the rows are staged and inserted in the order of the
    input: the i-th object inserted is the one built from the i-th
    record, and the i-th new row is the i-th record's, so that equal
    records each have a row of their own. *)
Theorem rows_follow_the_input_order records env w :
  Forall well_formed records ->
  storage_available env ->
  let '(resp, w') := submit_batch records env w in
  resp = created (List.length records)
  /\ List.length (emg_records w')
     = (List.length (emg_records w) + List.length records)%nat
  /\ exists sent,
       statements w' = statements w ++ sent
       /\ inserted sent = map EmgRecordDB_of records
       /\ forall i r,
            nth_error records i = Some r ->
            nth_error (inserted sent) i = Some (EmgRecordDB_of r)
            /\ nth_error (emg_records w') (List.length (emg_records w) + i)
               = Some (mkEmgRecordRow (id_seq w + Z.of_nat i)
                                      (timestamp r) (rawValue r) (utc_now env)).
Proof.
  intros Hwf Hcalm.
  rewrite submit_batch_unfold, (call_ok _ _ _ _ Hwf Hcalm).
  cbn [statements emg_records]. split; [reflexivity|]. split.
  - rewrite length_app. unfold rows_of.
    now rewrite inserted_rows_length, length_map.
  - exists (transaction_of records). split; [reflexivity|].
    split; [apply inserted_transaction_of|].
    intros i r Hr. rewrite inserted_transaction_of. split.
    + now rewrite nth_error_map, Hr.
    + rewrite nth_error_app2 by lia.
      replace (List.length (emg_records w) + i - List.length (emg_records w))%nat
        with i by lia.
      unfold rows_of.
      rewrite (inserted_rows_nth _ _ _ i (EmgRecordDB_of r)); [reflexivity|].
      now rewrite nth_error_map, Hr.
Qed.

Lemma rows_follow_the_input_order_witness :
  let a := mkEmgRecord 1000 half in
  let b := mkEmgRecord 7 (Decimal_of_int 3) in
  let records := [a; b; a] in
  Forall well_formed records
  /\ storage_available calm
  /\ (let '(resp, w') := submit_batch records calm one_row_world in
      resp = created 3
      /\ List.length (emg_records w') = 4%nat
      /\ exists sent,
           statements w' = statements one_row_world ++ sent
           /\ inserted sent = map EmgRecordDB_of records
           /\ forall i r,
                nth_error records i = Some r ->
                nth_error (inserted sent) i = Some (EmgRecordDB_of r)
                /\ nth_error (emg_records w') (1 + i)
                   = Some (mkEmgRecordRow (2 + Z.of_nat i)
                                          (timestamp r) (rawValue r) 1751000000))
  /\ emg_records (snd (submit_batch records calm one_row_world))
     = [mkEmgRecordRow 1 42 half 1750000000;
        mkEmgRecordRow 2 1000 half 1751000000;
        mkEmgRecordRow 3 7 (Decimal_of_int 3) 1751000000;
        mkEmgRecordRow 4 1000 half 1751000000].
Proof.
  intros a b records.
  assert (Hwf : Forall well_formed records).
  { repeat constructor; unfold well_formed, INT64_MIN, INT64_MAX; cbn; lia. }
  assert (Hcalm : storage_available calm) by (intros k; reflexivity).
  split; [exact Hwf|]. split; [exact Hcalm|]. split.
  - exact (rows_follow_the_input_order records calm one_row_world Hwf Hcalm).
  - reflexivity.
Defined.

(** * Further properties of the handlers *)

(** ** The dependency and the responses *)

(** X1.  Whatever the code given the session does, [get_db] runs it in
    a fresh session, hands its result or its exception through
    unchanged, and releases the session afterwards: nothing stays
    staged, no transaction stays open, and what the code wrote without
    committing is not among the committed rows. *)
Theorem get_db_releases_on_every_exit {A} (user : M A) env w :
  let fresh := mkWorld (emg_records w) (id_seq w) [] false [] (statements w) in
  let '(r, w') := get_db user env w in
  r = fst (user env fresh)
  /\ emg_records w' = emg_records (snd (user env fresh))
  /\ id_seq w' = id_seq (snd (user env fresh))
  /\ session_released w'.
Proof.
  unfold get_db, try_finally, SessionLocal, close, modify, bind. cbn.
  destruct (user env _) as [r w1]. cbn. repeat split.
Qed.

Section ResponseFacts.
Context {lax : LaxMode}.

(** X2.  No request changes or removes a committed row: after either
    operation, with any body and in any environment, the committed rows
    are the old ones followed by the new ones. *)
Theorem rows_are_only_appended body env w :
  (exists new,
      emg_records (snd (POST_emg_records body env w)) = emg_records w ++ new)
  /\ (exists new,
         emg_records (snd (POST_emg_record body env w)) = emg_records w ++ new).
Proof.
  split.
  - destruct (validate_List_EmgRecord body) as [records|] eqn:Hv.
    + rewrite (POST_emg_records_valid _ _ _ _ Hv), submit_batch_unfold.
      match goal with |- context [path_operation (fun _ : unit => _ ;;; ret ?c)] =>
        destruct (call_cases records c env w)
          as [(Hok & _) | (w' & k & tail & Hres & Hrows & _)]
      end.
      * rewrite Hok. eexists. reflexivity.
      * rewrite Hres. exists []. cbn. now rewrite app_nil_r.
    + rewrite (POST_emg_records_invalid _ _ _ Hv). exists []. cbn.
      now rewrite app_nil_r.
  - destruct (validate_EmgRecord body) as [r|] eqn:Hv.
    + rewrite (POST_emg_record_valid _ _ _ _ Hv), submit_single_unfold.
      match goal with |- context [path_operation (fun _ : unit => _ ;;; ret ?c)] =>
        destruct (call_cases [r] c env w)
          as [(Hok & _) | (w' & k & tail & Hres & Hrows & _)]
      end.
      * rewrite Hok. eexists. reflexivity.
      * rewrite Hres. exists []. cbn. now rewrite app_nil_r.
    + rewrite (POST_emg_record_invalid _ _ _ Hv). exists []. cbn.
      now rewrite app_nil_r.
Qed.

(** X3.  The batch operation never reports a success it did not have:
    when it answers with a content at all, the status is 201, the body
    was an array all of whose items validated, the count is the number of
    items, every timestamp was in range, and the rows of all the records
    are committed. *)
Theorem created_means_committed body env w s c :
  fst (POST_emg_records body env w) = JSONResponse s c ->
  exists items records,
    body = JArr items
    /\ validate_items items = Some records
    /\ s = 201
    /\ c = JObj [("status", JStr "Data Saved");
                 ("count", JInt (Z.of_nat (List.length items)))]
    /\ Forall well_formed records
    /\ emg_records (snd (POST_emg_records body env w))
       = emg_records w ++ rows_of (id_seq w) (utc_now env) records.
Proof.
  intros H.
  destruct (validate_List_EmgRecord body) as [records|] eqn:Hv.
  2: { rewrite (POST_emg_records_invalid _ _ _ Hv) in H. discriminate. }
  destruct body as [| | | | |items|]; try discriminate. cbn in Hv.
  exists items, records.
  assert (Hvalid : validate_List_EmgRecord (JArr items) = Some records) by exact Hv.
  rewrite (POST_emg_records_valid _ _ _ _ Hvalid) in *.
  rewrite submit_batch_unfold in *.
  match type of H with context [path_operation (fun _ : unit => _ ;;; ret ?c0)] =>
    destruct (call_cases records c0 env w)
      as [(Hok & Hwf & _) | (w' & k & tail & Hres & _)]
  end.
  - rewrite Hok in *. cbn in H. injection H as <- <-.
    rewrite (validate_items_length _ _ Hv).
    repeat split; assumption.
  - rewrite Hres in H. discriminate.
Qed.
End ResponseFacts.

Lemma created_means_committed_witness :
  let body := JArr [JObj [("timestamp", JInt 7); ("rawValue", JInt 2)]] in
  let content := JObj [("status", JStr "Data Saved"); ("count", JInt 1)] in
  fst (@POST_emg_records strict_mode body calm one_row_world)
  = JSONResponse 201 content
  /\ exists items records,
       body = JArr items
       /\ @validate_items strict_mode items = Some records
       /\ 201 = 201
       /\ content = JObj [("status", JStr "Data Saved");
                          ("count", JInt (Z.of_nat (List.length items)))]
       /\ Forall well_formed records
       /\ emg_records (snd (@POST_emg_records strict_mode body calm one_row_world))
          = emg_records one_row_world ++ rows_of 2 1751000000 records.
Proof.
  intros body content. split; [reflexivity|].
  exact (@created_means_committed strict_mode body calm one_row_world 201 content
           eq_refl).
Defined.

(** ** When a call succeeds *)

(** X4.  The batch operation answers 201 exactly when there is nothing
    to store, or every timestamp is in the 64-bit range and none of its
    three statements (BEGIN, INSERT, COMMIT) fails; in every other case
    it answers with the server error.  The empty batch succeeds whatever
    the state of the storage. *)
Theorem batch_succeeds_exactly_when records env w :
  (fst (submit_batch records env w) = created (List.length records)
   <-> records = []
       \/ (Forall well_formed records /\ no_fault_in_next 3 env w))
  /\ (fst (submit_batch records env w) = created (List.length records)
      \/ fst (submit_batch records env w) = InternalServerError)
  /\ submit_batch [] env w
     = (created 0,
        mkWorld (emg_records w) (id_seq w) [] false [] (statements w)).
Proof.
  rewrite submit_batch_unfold. split; [|split].
  - apply call_succeeds_iff.
  - match goal with |- context [path_operation (fun _ : unit => _ ;;; ret ?c)] =>
      destruct (call_cases records c env w)
        as [(Hok & _) | (w' & k & tail & Hres & _)]
    end.
    + left. now rewrite Hok.
    + right. now rewrite Hres.
  - reflexivity.
Qed.

(** X5.  Validation lets a timestamp outside the 64-bit range through,
    and the store refuses it: a body that validates but holds such a
    record is answered with the server error, in any environment, and
    none of its records is committed. *)
Theorem timestamp_out_of_range_fails_the_batch {lax : LaxMode}
        body records r env w :
  validate_List_EmgRecord body = Some records ->
  In r records ->
  ~ well_formed r ->
  let '(resp, w') := POST_emg_records body env w in
  resp = InternalServerError
  /\ status_code resp = 500
  /\ emg_records w' = emg_records w.
Proof.
  intros Hv Hin Hbad.
  rewrite (POST_emg_records_valid _ _ _ _ Hv), submit_batch_unfold.
  match goal with |- context [path_operation (fun _ : unit => _ ;;; ret ?c)] =>
    destruct (call_cases records c env w)
      as [(Hok & Hwf & _) | (w' & k & tail & Hres & Hrows & _)]
  end.
  - exfalso. rewrite Forall_forall in Hwf. exact (Hbad (Hwf r Hin)).
  - rewrite Hres. repeat split. exact Hrows.
Qed.

Lemma timestamp_out_of_range_fails_the_batch_witness :
  let body := JArr [JObj [("timestamp", JInt 1); ("rawValue", JInt 2)];
                    JObj [("timestamp", JInt (-9223372036854775809));
                          ("rawValue", JInt 2)]] in
  let r := mkEmgRecord (-9223372036854775809) (Decimal_of_int 2) in
  let records := [mkEmgRecord 1 (Decimal_of_int 2); r] in
  @validate_List_EmgRecord strict_mode body = Some records
  /\ In r records
  /\ ~ well_formed r
  /\ let '(resp, w') := @POST_emg_records strict_mode body calm one_row_world in
     resp = InternalServerError
     /\ status_code resp = 500
     /\ emg_records w' = emg_records one_row_world.
Proof.
  intros body r records.
  assert (Hv : @validate_List_EmgRecord strict_mode body = Some records)
    by reflexivity.
  assert (Hin : In r records) by (right; left; reflexivity).
  assert (Hbad : ~ well_formed r).
  { unfold well_formed, INT64_MIN, INT64_MAX, r. cbn. lia. }
  split; [exact Hv|]. split; [exact Hin|]. split; [exact Hbad|].
  exact (@timestamp_out_of_range_fails_the_batch strict_mode body records r
           calm one_row_world Hv Hin Hbad).
Defined.

(** X8.  The single-record operation answers 201 exactly when the
    timestamp is in range and none of its three statements fails, and
    then exactly one row is added; otherwise it answers with the server
    error and the committed rows are unchanged. *)
Theorem single_record_outcome r env w :
  let '(resp, w') := submit_single r env w in
  (resp = created 1 <-> well_formed r /\ no_fault_in_next 3 env w)
  /\ (resp = created 1 ->
      emg_records w'
      = emg_records w
          ++ [mkEmgRecordRow (id_seq w) (timestamp r) (rawValue r) (utc_now env)])
  /\ (resp <> created 1 ->
      resp = InternalServerError /\ emg_records w' = emg_records w).
Proof.
  rewrite submit_single_unfold.
  match goal with |- context [path_operation (fun _ : unit => _ ;;; ret ?c)] =>
    pose proof (call_succeeds_iff [r] c env w) as Hiff;
    destruct (call_cases [r] c env w)
      as [(Hok & Hwf & Hcalm) | (w' & k & tail & Hres & Hrows & _)]
  end.
  - rewrite Hok in *. cbn [fst] in Hiff.
    destruct Hcalm as [Hnil | Hcalm]; [discriminate|].
    split; [split|split].
    + intros _. split; [now inversion Hwf|exact Hcalm].
    + intros _. reflexivity.
    + intros _. reflexivity.
    + intros Hne. now destruct Hne.
  - rewrite Hres in *. cbn [fst] in Hiff.
    split; [split|split].
    + discriminate.
    + intros [Hwf Hcalm]. exfalso.
      assert (H : InternalServerError
                  = JSONResponse 201 (JObj [("status", JStr "Data Saved");
                                            ("count", JInt 1)])).
      { apply Hiff. right. split; [now constructor|exact Hcalm]. }
      discriminate.
    + discriminate.
    + intros _. split; [reflexivity|exact Hrows].
Qed.

(** ** Calls one after the other *)

(** ** Calls one after the other *)




(** ** The table stays sound *)

(** ** The table stays sound *)

Lemma inserted_rows_ids now objs :
  forall first_id,
    Forall (fun row => first_id <= row_id row
                       < first_id + Z.of_nat (List.length objs))
           (inserted_rows first_id now objs).
Proof.
  induction objs as [|obj rest IH]; intros first_id; cbn [inserted_rows].
  - constructor.
  - constructor.
    + cbn. lia.
    + apply Forall_impl with (2 := IH (first_id + 1)).
      intros row Hrow. cbn [List.length]. lia.
Qed.

Lemma inserted_rows_NoDup now objs :
  forall first_id, NoDup (map row_id (inserted_rows first_id now objs)).
Proof.
  induction objs as [|obj rest IH]; intros first_id; cbn.
  - constructor.
  - constructor; [|apply IH].
    intros Hin. apply in_map_iff in Hin. destruct Hin as (row & Hid & Hin).
    pose proof (inserted_rows_ids now rest (first_id + 1)) as Hids.
    rewrite Forall_forall in Hids. specialize (Hids row Hin). lia.
Qed.

Lemma rows_of_fit first_id now records :
  Forall well_formed records ->
  Forall (fun row => fits_BigInteger (row_timestamp row) = true)
         (rows_of first_id now records).
Proof.
  intros H. unfold rows_of. revert first_id.
  induction H as [|r rest [Hlo Hhi] Hrest IH]; intros first_id; cbn.
  - constructor.
  - constructor; [|apply IH].
    cbn. unfold fits_BigInteger.
    apply andb_true_intro. split; now apply Z.leb_le.
Qed.

Lemma call_keeps_store_ok records content env w :
  store_ok w ->
  store_ok (snd (respond HTTP_201_CREATED
                   (path_operation
                      (fun _ : unit => create_emg_records records ;;; ret content)
                      (Some tt) env w))).
Proof.
  intros (Hids & Hnodup & Hfit).
  destruct (call_cases records content env w)
    as [(Hok & Hwf & _) | (w' & k & tail & Hres & Hrows & Hmono & _)].
  - rewrite Hok. cbn [snd].
    pose proof (inserted_rows_ids (utc_now env) (map EmgRecordDB_of records)
                                  (id_seq w)) as Hnew.
    rewrite length_map in Hnew.
    unfold store_ok. cbn [emg_records id_seq]. split; [|split].
    + apply Forall_app. split.
      * apply Forall_impl with (2 := Hids). intros row Hrow. lia.
      * apply Forall_impl with (2 := Hnew). intros row Hrow. lia.
    + rewrite map_app. unfold rows_of. apply NoDup_app;
        [assumption|apply inserted_rows_NoDup|].
      intros i Hold Hin.
      apply in_map_iff in Hold. destruct Hold as (row & <- & Hold).
      apply in_map_iff in Hin. destruct Hin as (row' & Heq & Hin).
      rewrite Forall_forall in Hids, Hnew.
      specialize (Hids row Hold). specialize (Hnew row' Hin). lia.
    + apply Forall_app. split; [assumption|]. now apply rows_of_fit.
  - rewrite Hres. cbn [snd]. unfold store_ok. rewrite Hrows.
    split; [|split]; try assumption.
    apply Forall_impl with (2 := Hids). intros row Hrow. lia.
Qed.

(** X7.  Either operation, with any body and in any environment, keeps
    the table sound: the surrogate ids stay distinct and below the
    sequence, and every stored timestamp is in the 64-bit range, also
    after calls that failed half way. *)
Theorem store_stays_sound {lax : LaxMode} body env w :
  store_ok w ->
  store_ok (snd (POST_emg_records body env w))
  /\ store_ok (snd (POST_emg_record body env w)).
Proof.
  intros Hok. split.
  - destruct (validate_List_EmgRecord body) as [records|] eqn:Hv.
    + rewrite (POST_emg_records_valid _ _ _ _ Hv), submit_batch_unfold.
      now apply call_keeps_store_ok.
    + rewrite (POST_emg_records_invalid _ _ _ Hv). exact Hok.
  - destruct (validate_EmgRecord body) as [r|] eqn:Hv.
    + rewrite (POST_emg_record_valid _ _ _ _ Hv), submit_single_unfold.
      now apply call_keeps_store_ok.
    + rewrite (POST_emg_record_invalid _ _ _ Hv). exact Hok.
Qed.

Lemma store_stays_sound_witness :
  let body := JArr [JObj [("timestamp", JInt 1); ("rawValue", JInt 2)];
                    JObj [("timestamp", JInt 3); ("rawValue", JInt 4)]] in
  store_ok one_row_world
  /\ store_ok (snd (@POST_emg_records strict_mode body stormy one_row_world))
  /\ store_ok (snd (@POST_emg_record strict_mode body stormy one_row_world)).
Proof.
  intros body.
  assert (Hok : store_ok one_row_world).
  { unfold store_ok, one_row_world. cbn. repeat split.
    - repeat constructor.
    - constructor; [intros []|constructor].
    - repeat constructor. }
  split; [exact Hok|].
  exact (@store_stays_sound strict_mode body stormy one_row_world Hok).
Defined.

(** ** The greeting *)

(** ** The greeting *)

Lemma length_append (a b : string) :
  String.length (a ++ b)%string = (String.length a + String.length b)%nat.
Proof. induction a as [|c a IH]; cbn; [reflexivity|now rewrite IH]. Qed.

Lemma substring_prefix (a b : string) :
  substring 0 (String.length a) (a ++ b)%string = a.
Proof.
  induction a as [|c a IH]; cbn.
  - now destruct b.
  - now rewrite IH.
Qed.

(** X11.  The greeting carries the name as it was given: the message is
    eight characters longer than the name, the name can be read back from
    between the fixed prefix and the closing mark, and so two names with
    the same greeting are the same name. *)
Theorem say_hello_keeps_the_name (name : string) :
  String.length (message (say_hello name)) = (String.length name + 8)%nat
  /\ substring 7 (String.length (message (say_hello name)) - 8)
               (message (say_hello name)) = name
  /\ (forall other,
         message (say_hello name) = message (say_hello other) -> name = other).
Proof.
  assert (Hlen : forall a,
             String.length (message (say_hello a)) = (String.length a + 8)%nat).
  { intros a. cbn. rewrite length_append. cbn. lia. }
  assert (Hback : forall a,
             substring 7 (String.length (message (say_hello a)) - 8)
                       (message (say_hello a)) = a).
  { intros a. rewrite Hlen.
    replace (String.length a + 8 - 8)%nat with (String.length a) by lia.
    cbn. apply substring_prefix. }
  split; [apply Hlen|]. split; [apply Hback|].
  intros other H. rewrite <- (Hback name), <- (Hback other). now rewrite H.
Qed.

(** ** Some runs *)

(** No records: nothing is sent, and the answer is 201 even while the
    storage is down. *)
Example empty_batch_sends_nothing :
  submit_batch [] (mkEnv (fun _ => true) 0) one_row_world
  = (created 0, one_row_world).
Proof. vm_compute. reflexivity. Qed.

(** The INSERT of a batch of three fails on the connection: the
    transaction is rolled back and no row is visible afterwards. *)
Example failed_insert_leaves_no_row :
  let records := [mkEmgRecord 1 half; mkEmgRecord 2 half; mkEmgRecord 3 half] in
  let '(resp, w') := submit_batch records gusty one_row_world in
  resp = InternalServerError
  /\ emg_records w' = emg_records one_row_world
  /\ statements w'
     = [BEGIN; INSERT_VALUES (map EmgRecordDB_of records); ROLLBACK].
Proof. vm_compute. repeat split. Qed.

(** The COMMIT fails: the rows that had been inserted are not visible,
    and no rollback follows. *)
Example failed_commit_leaves_no_row :
  let records := [mkEmgRecord 1 half; mkEmgRecord 2 half] in
  let '(resp, w') := submit_batch records stormy one_row_world in
  resp = InternalServerError
  /\ emg_records w' = emg_records one_row_world
  /\ statements w'
     = [BEGIN; INSERT_VALUES (map EmgRecordDB_of records); COMMIT].
Proof. vm_compute. repeat split. Qed.

(** A timestamp one past the 64-bit range passes validation and is
    refused by the column: the call ends in a server error, not in a
    validation failure, and the record before it is not kept either. *)
Example timestamp_past_int64_is_refused_by_the_store :
  let body := JArr [JObj [("timestamp", JInt 5); ("rawValue", JInt 1)];
                    JObj [("timestamp", JInt 9223372036854775808); ("rawValue", JInt 1)]] in
  let '(resp, w') := @POST_emg_records strict_mode body calm one_row_world in
  status_code resp = 500
  /\ emg_records w' = emg_records one_row_world
  /\ id_seq w' = id_seq one_row_world.
Proof. vm_compute. repeat split. Qed.
